(** * A shallow embedding of the service worker [sw.js] of pizzaria-miragem

    The worker keeps two versioned cache namespaces, classifies every
    intercepted GET request into one of three caching strategies and runs the
    corresponding executor over the browser's [CacheStorage] and the network.

    Model:
    - the [CacheStorage] is an association list from namespace names to
      association lists from request URLs to responses, kept in creation
      order, because [caches.match] searches namespaces in that order;
    - an async function runs in a state-and-exception monad [M] over a
      [World] holding the storage, a trace of observable effects (fetches,
      cache accesses, log lines, [skipWaiting], [clients.claim]) and the
      background refreshes started by stale-while-revalidate that have not
      settled yet;
    - the environment [Env] fixes the network (a URL either yields a response
      or the fetch rejects) and which storage primitives reject. *)

From Stdlib Require Import String ZArith List Bool Lia.
Import ListNotations.
Open Scope string_scope.

(** ** Data *)

Record Response := mkResponse {
  status : Z;
  statusText : string;
  body : string
}.

Record Request := mkRequest {
  url : string;
  method : string;
  destination : string
}.

(** A JavaScript value an async executor can resolve with: a [Response],
    [null] or [undefined]. *)
Inductive jsval :=
| JResp (r : Response)
| JNull
| JUndefined.

(** The settlement of a promise. *)
Inductive outcome (A : Type) :=
| Ok (a : A)
| Throw (e : string).
Arguments Ok {A} a.
Arguments Throw {A} e.

Inductive event :=
| EFetch (u : string)
| EOpen (name : string)
| EMatch (u : string)
| EPut (name : string) (u : string)
| EDelete (name : string)
| EKeys
| ELog (msg : string)
| ESkipWaiting
| EClaim.

Definition namespace := list (string * Response).
Definition storage := list (string * namespace).

Record World := mkWorld {
  caches : storage;
  trace : list event;
  pending : list Request
}.

Record Env := mkEnv {
  origin : string;
  net : string -> option Response;
  open_fails : bool;
  match_fails : bool;
  put_fails : bool
}.

(** ** Constants of [sw.js] *)

Definition CACHE_NAME := "pizzaria-miragem-v1.2".
Definition STATIC_CACHE := "static-v1.2".
Definition DYNAMIC_CACHE := "dynamic-v1.2".

Definition STATIC_ASSETS : list string := [
  "/";
  "/index.html";
  "/styles.css";
  "/content.html";
  "https://fonts.googleapis.com/css2?family=Poppins:wght@400;500;600;700&family=Playfair+Display:wght@700&display=swap";
  "https://cdnjs.cloudflare.com/ajax/libs/font-awesome/6.4.0/js/all.min.js"
].

Definition NETWORK_FIRST : list string := [
  "/api/";
  "/contact";
  "https://www.google.com/maps/"
].

Definition STALE_WHILE_REVALIDATE : list string := [
  "https://fonts.googleapis.com/";
  "https://fonts.gstatic.com/";
  "https://cdnjs.cloudflare.com/"
].

(** [new Response('Offline', { status: 503, statusText: ..., ... })] *)
Definition offline503 := mkResponse 503 "Service Unavailable" "Offline".
(** [new Response('Offline', { status: 503 })] in the last resort of
    stale-while-revalidate, with the default empty status text. *)
Definition offline503_plain := mkResponse 503 "" "Offline".

(** ** Strings *)

(** [String.prototype.includes]. *)
Fixpoint includes (s pat : string) : bool :=
  prefix pat s ||
  match s with
  | EmptyString => false
  | String _ s' => includes s' pat
  end.

(** [String.prototype.startsWith]. *)
Definition startsWith (s pat : string) : bool := prefix pat s.

(** ** Association-list helpers *)

Fixpoint assoc {A} (k : string) (l : list (string * A)) : option A :=
  match l with
  | [] => None
  | (k', v) :: l' => if String.eqb k k' then Some v else assoc k l'
  end.

(** Overwrite the value of [k], or append a new binding at the end. *)
Fixpoint assoc_set {A} (k : string) (v : A) (l : list (string * A))
  : list (string * A) :=
  match l with
  | [] => [(k, v)]
  | (k', v') :: l' =>
      if String.eqb k k' then (k, v) :: l' else (k', v') :: assoc_set k v l'
  end.

(** [caches.match(request)]: the first namespace, in creation order, that
    holds the URL. *)
Fixpoint match_all (u : string) (st : storage) : option Response :=
  match st with
  | [] => None
  | (_, ns) :: st' =>
      match assoc u ns with
      | Some r => Some r
      | None => match_all u st'
      end
  end.

(** The namespace [name], created empty at the end if absent. *)
Definition ensure (name : string) (st : storage) : storage :=
  match assoc name st with
  | Some _ => st
  | None => (st ++ [(name, [])])%list
  end.

(** ** The monad *)

Definition M (A : Type) := World -> outcome A * World.

Definition ret {A} (a : A) : M A := fun w => (Ok a, w).

Definition bind {A B} (m : M A) (f : A -> M B) : M B :=
  fun w => match m w with
           | (Ok a, w') => f a w'
           | (Throw e, w') => (Throw e, w')
           end.

Definition throw {A} (e : string) : M A := fun w => (Throw e, w).

(** [try { m } catch (e) { h(e) }] *)
Definition catch_m {A} (m : M A) (h : string -> M A) : M A :=
  fun w => match m w with
           | (Ok a, w') => (Ok a, w')
           | (Throw e, w') => h e w'
           end.

Notation "x <- m ;; k" := (bind m (fun x => k))
  (at level 61, m at next level, right associativity).
Notation "m ;;; k" := (bind m (fun _ => k))
  (at level 61, right associativity).

Definition emit (e : event) : M unit :=
  fun w => (Ok tt, mkWorld (caches w) (trace w ++ [e])%list (pending w)).

Definition log (msg : string) : M unit := emit (ELog msg).

Definition get_caches : M storage := fun w => (Ok (caches w), w).

Definition set_caches (st : storage) : M unit :=
  fun w => (Ok tt, mkWorld st (trace w) (pending w)).

(** ** Browser primitives over a fixed environment *)

Section Worker.

Variable env : Env.

(** Relative URLs are resolved against the worker's origin. *)
Definition resolve (u : string) : string :=
  if startsWith u "http" then u else origin env ++ u.

(** [caches.open(name)]: creates the namespace at the end if absent. *)
Definition cs_open (name : string) : M unit :=
  emit (EOpen name);;;
  if open_fails env then throw "caches.open rejected" else
  st <- get_caches;;
  set_caches (ensure name st).

(** [caches.match(request)]: a non-GET request never matches (the Cache
    API's [ignoreMethod] defaults to false); [None] is [undefined]. *)
Definition cs_match (req : Request) : M (option Response) :=
  emit (EMatch (url req));;;
  if match_fails env then throw "caches.match rejected" else
  if negb (String.eqb (method req) "GET") then ret None else
  st <- get_caches;;
  ret (match_all (url req) st).

(** [caches.match(u)] on a URL string. *)
Definition cs_match_url (u : string) : M (option Response) :=
  cs_match (mkRequest (resolve u) "GET" "").

Definition put_in (name : string) (u : string) (r : Response) (st : storage)
  : storage :=
  let ns := match assoc name st with Some ns => ns | None => [] end in
  assoc_set name (assoc_set u r ns) st.

(** [cache.put(request, response)] on the handle of namespace [name]: the
    Cache API rejects a non-GET request. *)
Definition cache_put (name : string) (req : Request) (r : Response) : M unit :=
  emit (EPut name (url req));;;
  if put_fails env then throw "cache.put rejected (quota exceeded)" else
  if negb (String.eqb (method req) "GET") then throw "TypeError: not GET" else
  st <- get_caches;;
  set_caches (put_in name (url req) r st).

(** [fetch(request)]: resolves with the network's response or rejects. *)
Definition fetch (req : Request) : M Response :=
  emit (EFetch (url req));;;
  match net env (url req) with
  | Some r => ret r
  | None => throw "TypeError: Failed to fetch"
  end.

Definition opt_js (o : option Response) : jsval :=
  match o with Some r => JResp r | None => JUndefined end.

(** ** Strategy executors *)

(** [async function cacheFirst(request)] *)
Definition cacheFirst (req : Request) : M jsval :=
  catch_m
    (cacheResponse <- cs_match req;;
     match cacheResponse with
     | Some c => ret (JResp c)
     | None =>
         networkResponse <- fetch req;;
         (if Z.eqb (status networkResponse) 200 then
            cs_open DYNAMIC_CACHE;;; cache_put DYNAMIC_CACHE req networkResponse
          else ret tt);;;
         ret (JResp networkResponse)
     end)
    (fun _ =>
       log "Cache-first strategy failed:";;;
       if String.eqb (destination req) "document" then
         r <- cs_match_url "/index.html";; ret (opt_js r)
       else ret (JResp offline503)).

(** [async function networkFirst(request)] *)
Definition networkFirst (req : Request) : M jsval :=
  catch_m
    (networkResponse <- fetch req;;
     (if Z.eqb (status networkResponse) 200 then
        cs_open DYNAMIC_CACHE;;; cache_put DYNAMIC_CACHE req networkResponse
      else ret tt);;;
     ret (JResp networkResponse))
    (fun _ =>
       log "Network-first strategy failed:";;;
       cacheResponse <- cs_match req;;
       match cacheResponse with
       | Some c => ret (JResp c)
       | None => ret (JResp offline503)
       end).

(** The [cache.put] of the background refresh is not awaited: a rejection
    reaches the worker's [unhandledrejection] listener, which logs it. *)
Definition put_unawaited (name : string) (req : Request) (r : Response)
  : M unit :=
  catch_m (cache_put name req r)
    (fun _ => log "Service Worker unhandled promise rejection:").

(** The continuation of [fetch(request).then(...).catch(...)] in
    stale-while-revalidate, run when the fetch settles. *)
Definition swr_refresh (req : Request) : M jsval :=
  match net env (url req) with
  | Some networkResponse =>
      (if Z.eqb (status networkResponse) 200 then
         put_unawaited DYNAMIC_CACHE req networkResponse
       else ret tt);;;
      ret (JResp networkResponse)
  | None => log "Background fetch failed:";;; ret JNull
  end.

(** Record a fetch that has been issued and not yet settled. *)
Definition defer (req : Request) : M unit :=
  fun w => (Ok tt, mkWorld (caches w) (trace w) (pending w ++ [req])%list).

(** [async function staleWhileRevalidate(request)]: the fetch is issued
    before the function returns; with a cached copy the function returns it
    at once and the refresh stays pending, otherwise it awaits the refresh. *)
Definition staleWhileRevalidate (req : Request) : M jsval :=
  catch_m
    (cs_open DYNAMIC_CACHE;;;
     cacheResponse <- cs_match req;;
     emit (EFetch (url req));;;
     match cacheResponse with
     | Some c => defer req;;; ret (JResp c)
     | None => swr_refresh req
     end)
    (fun _ =>
       log "Stale-while-revalidate strategy failed:";;;
       emit (EFetch (url req));;;
       match net env (url req) with
       | Some r => ret (JResp r)
       | None => ret (JResp offline503_plain)
       end).

Fixpoint run_refreshes (l : list Request) : M unit :=
  match l with
  | [] => ret tt
  | r :: l' => swr_refresh r;;; run_refreshes l'
  end.

(** Let every pending background fetch settle, in the order issued. *)
Definition settle : M unit :=
  fun w => run_refreshes (pending w) (mkWorld (caches w) (trace w) []).

(** ** The fetch listener *)

Inductive strategy := CacheFirst | NetworkFirst | StaleWhileRevalidate.

(** The pattern tests of the fetch listener, in the listener's order. *)
Definition classify (u : string) : strategy :=
  if existsb (fun pattern => includes u pattern) NETWORK_FIRST then NetworkFirst
  else if existsb (fun pattern => includes u pattern) STALE_WHILE_REVALIDATE
  then StaleWhileRevalidate
  else CacheFirst.

Definition executor (s : strategy) : Request -> M jsval :=
  match s with
  | CacheFirst => cacheFirst
  | NetworkFirst => networkFirst
  | StaleWhileRevalidate => staleWhileRevalidate
  end.

(** What the listener does with the event: return without [respondWith]
    (the browser then handles the request itself), or respond with the
    promise of an executor. *)
Inductive fetch_result :=
| PassThrough
| Responded (o : outcome jsval).

(** [self.addEventListener('fetch', ...)] *)
Definition on_fetch (req : Request) (w : World) : fetch_result * World :=
  if negb (String.eqb (method req) "GET") then (PassThrough, w) else
  if negb (startsWith (url req) "http") then (PassThrough, w) else
  let (o, w') := executor (classify (url req)) req w in (Responded o, w').

(** ** The install listener *)

Definition ok_status (s : Z) : bool := (200 <=? s)%Z && (s <=? 299)%Z.

Fixpoint all_ok (rs : list (option Response)) : option (list Response) :=
  match rs with
  | [] => Some []
  | Some r :: rs' =>
      if ok_status (status r) then
        match all_ok rs' with Some l => Some (r :: l) | None => None end
      else None
  | None :: _ => None
  end.

Fixpoint put_all (name : string) (kv : list (string * Response)) (st : storage)
  : storage :=
  match kv with
  | [] => st
  | (u, r) :: kv' => put_all name kv' (put_in name u r st)
  end.

(** [cache.addAll(urls)]: every URL is fetched; the call rejects, writing
    nothing, if a fetch rejects or answers with a status outside 200-299;
    otherwise all responses are written in one batch. *)
Definition addAll (name : string) (urls : list string) : M unit :=
  let us := map resolve urls in
  fold_right (fun u m => emit (EFetch u);;; m) (ret tt) us;;;
  match all_ok (map (net env) us) with
  | None => throw "TypeError: addAll failed"
  | Some rs =>
      fold_right (fun u m => emit (EPut name u);;; m) (ret tt) us;;;
      if put_fails env then throw "cache.addAll rejected (quota exceeded)" else
      st <- get_caches;;
      set_caches (put_all name (combine us rs) st)
  end.

(** The promise handed to [event.waitUntil] by the install listener. *)
Definition install_handler : M unit :=
  log "Service Worker installing...";;;
  catch_m
    (cs_open STATIC_CACHE;;;
     log "Caching static assets";;;
     addAll STATIC_CACHE STATIC_ASSETS;;;
     emit ESkipWaiting)
    (fun _ => log "Failed to cache static assets:").

(** The install step succeeds exactly when the [waitUntil] promise
    fulfils. *)
Definition install_event (w : World) : bool * World :=
  match install_handler w with
  | (Ok _, w') => (true, w')
  | (Throw _, w') => (false, w')
  end.

End Worker.

(** ** The activate listener *)

Definition is_stale (cacheName : string) : bool :=
  negb (String.eqb cacheName STATIC_CACHE) &&
  negb (String.eqb cacheName DYNAMIC_CACHE).

(** [caches.delete(name)] *)
Definition cs_delete (name : string) : M unit :=
  emit (EDelete name);;;
  st <- get_caches;;
  set_caches (filter (fun p => negb (String.eqb (fst p) name)) st).

Fixpoint delete_all (names : list string) : M unit :=
  match names with
  | [] => ret tt
  | n :: ns => log "Deleting old cache:";;; cs_delete n;;; delete_all ns
  end.

(** The promise handed to [event.waitUntil] by the activate listener;
    [caches.keys] and [caches.delete] are taken not to reject. *)
Definition activate_handler : M unit :=
  log "Service Worker activating...";;;
  emit EKeys;;;
  st <- get_caches;;
  delete_all (filter is_stale (map fst st));;;
  emit EClaim.

(** ** Observations and concrete scenarios *)

(** Whether a URL matches one of the patterns of a strategy list. *)
Definition matches_any (u : string) (patterns : list string) : bool :=
  existsb (fun pattern => includes u pattern) patterns.

(** Requests with an http: or https: URL. *)
Definition http_scheme (u : string) : bool :=
  startsWith u "http:" || startsWith u "https:".

(** The number of fetches in a trace. *)
Definition fetch_count (tr : list event) : nat :=
  length (filter (fun e => match e with EFetch _ => true | _ => false end) tr).

Definition site := "https://pizzariamiragem.example".

Definition empty_world := mkWorld [] [] [].

(** The network is unreachable; storage works. *)
Definition env_offline := mkEnv site (fun _ => None) false false false.

(** Every URL answers [resp]; storage works, except writes when
    [put_broken] is set. *)
Definition env_answering (resp : Response) (put_broken : bool) :=
  mkEnv site (fun _ => Some resp) false false put_broken.

(** The network is unreachable and [caches.match] rejects. *)
Definition env_down := mkEnv site (fun _ => None) false true false.

Definition home := mkResponse 200 "OK" "HOME".
Definition fresh := mkResponse 200 "OK" "NEW".
Definition stale := mkResponse 200 "OK" "OLD".
Definition non_authoritative := mkResponse 203 "Non-Authoritative Information" "MAP".

Definition font_css_url :=
  "https://fonts.googleapis.com/css2?family=Poppins:wght@400;500;600;700&family=Playfair+Display:wght@700&display=swap".

Definition font_file_req :=
  mkRequest "https://fonts.gstatic.com/s/poppins/v20/pxiEyp8kv8JHgFVrJJfecg.woff2"
    "GET" "font".
Definition font_css_req := mkRequest font_css_url "GET" "style".
Definition page_req := mkRequest (site ++ "/index.html") "GET" "document".
Definition image_req := mkRequest (site ++ "/images/about.webp") "GET" "image".
Definition contact_req := mkRequest (site ++ "/contact") "GET" "document".

(** The state after a successful install of this version: the stylesheet of
    the web fonts is in the static namespace. *)
Definition installed_world :=
  mkWorld [(STATIC_CACHE, [(font_css_url, stale)]); (DYNAMIC_CACHE, [])] [] [].

(** A state where an earlier refresh left a web-font file in the dynamic
    namespace. *)
Definition refreshed_world :=
  mkWorld [(STATIC_CACHE, []); (DYNAMIC_CACHE, [(url font_file_req, stale)])] [] [].

(** A computation that leaves every namespace other than the dynamic one as
    it was. *)
Definition others_kept {A} (m : M A) : Prop :=
  forall w n, n <> DYNAMIC_CACHE ->
    assoc n (caches (snd (m w))) = assoc n (caches w).

(** The fetches a computation adds to the trace. *)
Definition new_fetches {A} (m : M A) (w : World) : nat :=
  fetch_count (trace (snd (m w))) - fetch_count (trace w).


(** What [caches.match] finds for [u] in the namespaces created before the
    first one named [stop]. *)
Fixpoint match_before (stop u : string) (st : storage) : option Response :=
  match st with
  | [] => None
  | (n, ns) :: st' =>
      if String.eqb n stop then None else
      match assoc u ns with
      | Some r => Some r
      | None => match_before stop u st'
      end
  end.

(** ** The push and notificationclick listeners *)

Section Push.

#[local] Set Warnings "-register-all".

(** A JSON number parses to a double; the listeners only test its
    truthiness ([false] exactly for 0 and -0). *)
Context {number : Type}.
Variable number_truthy : number -> bool.

(** The value [event.data.json()] parses to. *)
Inductive json :=
| JsonNull
| JsonBool (b : bool)
| JsonNum (x : number)
| JsonStr (s : string)
| JsonArr (l : list json)
| JsonObj (fields : list (string * json)).

(** The result of a property read: a value, or [undefined]. *)
Inductive jsany :=
| JsUndefined
| JsDefined (v : json).

(** [v.k] on a value other than [null], for the keys the listener reads
    ([title], [body], [url]): an own field of an object, the last binding
    when a key is repeated (as [JSON.parse] keeps it); [undefined] for a
    boolean, number, string or array, which have no such property. *)
Definition lookup (v : json) (k : string) : jsany :=
  match v with
  | JsonObj fs =>
      match assoc k (rev fs) with Some x => JsDefined x | None => JsUndefined end
  | _ => JsUndefined
  end.

(** [v.k]: reading a property of [null] throws a TypeError. *)
Definition get_prop (v : json) (k : string) : outcome jsany :=
  match v with
  | JsonNull => Throw "TypeError: Cannot read properties of null"
  | _ => Ok (lookup v k)
  end.

(** [event.data]: absent, or a payload whose [.json()] parses or throws. *)
Inductive push_payload :=
| PayloadJson (v : json)
| PayloadMalformed.

(** The arguments of [showNotification(title, options)], before the
    browser's WebIDL conversions. *)
Record Notification := mkNotification {
  n_title : jsany;
  n_body : jsany;
  n_icon : string;
  n_badge : string;
  n_data_url : jsany
}.

Inductive push_result :=
| PushIgnored
| PushShown (n : Notification)
| PushThrew (e : string).

(** [self.addEventListener('push', ...)]: the options object reads
    [data.body], then [data.url], before [data.title] is read for the
    call. *)
Definition on_push (data : option push_payload) : push_result :=
  match data with
  | None => PushIgnored
  | Some PayloadMalformed => PushThrew "SyntaxError: JSON.parse"
  | Some (PayloadJson v) =>
      match get_prop v "body" with
      | Throw e => PushThrew e
      | Ok b =>
          match get_prop v "url" with
          | Throw e => PushThrew e
          | Ok u =>
              match get_prop v "title" with
              | Throw e => PushThrew e
              | Ok t =>
                  PushShown (mkNotification t b "/images/icon-192.png"
                               "/images/badge-72.png" u)
              end
          end
      end
  end.

(** JavaScript truthiness of a parsed value. *)
Definition truthy_json (v : json) : bool :=
  match v with
  | JsonNull => false
  | JsonBool b => b
  | JsonNum x => number_truthy x
  | JsonStr s => negb (String.eqb s "")
  | JsonArr _ | JsonObj _ => true
  end.

Definition truthy (a : jsany) : bool :=
  match a with JsUndefined => false | JsDefined v => truthy_json v end.

(** [self.addEventListener('notificationclick', ...)]: the notification is
    closed; [notification.data] is the object [{url: ...}], always truthy,
    so a window is opened on [data.url] exactly when that is truthy. *)
Definition on_notificationclick (n : Notification) : bool * option jsany :=
  (true, if truthy (n_data_url n) then Some (n_data_url n) else None).

End Push.

(** A push payload with integer numbers, truthy when nonzero. *)
Definition z_truthy (z : Z) : bool := negb (Z.eqb z 0).

Definition promo : json (number := Z) :=
  JsonObj [("title", JsonStr "Promo"); ("body", JsonStr "2 por 1");
           ("url", JsonStr "/cardapio")].

(** * Properties *)

Open Scope list_scope.

Lemma bind_ret {A B} (a : A) (f : A -> M B) w : bind (ret a) f w = f a w.
Proof. reflexivity. Qed.

Lemma match_all_app_empty u st name :
  match_all u (st ++ [(name, [])]) = match_all u st.
Proof.
  induction st as [|[n ns] st IH]; simpl; [reflexivity|].
  destruct (assoc u ns); [reflexivity|exact IH].
Qed.

Lemma match_all_ensure u st name :
  match_all u (ensure name st) = match_all u st.
Proof.
  unfold ensure. destruct (assoc name st); [reflexivity|].
  apply match_all_app_empty.
Qed.

Lemma assoc_assoc_set_same {A} k (v : A) l : assoc k (assoc_set k v l) = Some v.
Proof.
  induction l as [|[k' v'] l IH]; simpl.
  - rewrite String.eqb_refl. reflexivity.
  - destruct (String.eqb k k') eqn:E; simpl.
    + rewrite String.eqb_refl. reflexivity.
    + rewrite E. exact IH.
Qed.

(** After a write of [u] into [name], the namespace [name] holds it. *)
Lemma assoc_put_in name u r st :
  option_map (assoc u) (assoc name (put_in name u r st)) = Some (Some r).
Proof.
  unfold put_in. rewrite assoc_assoc_set_same. simpl.
  rewrite assoc_assoc_set_same. reflexivity.
Qed.

(** [caches.match] finds a written entry when no other namespace holds the
    URL. *)
Lemma match_all_put_in name u r st :
  (forall n ns, In (n, ns) st -> n <> name -> assoc u ns = None) ->
  match_all u (put_in name u r st) = Some r.
Proof.
  unfold put_in. induction st as [|[n ns] st IH]; intros Hother; simpl.
  - rewrite String.eqb_refl. reflexivity.
  - destruct (String.eqb name n) eqn:E; simpl.
    + rewrite assoc_assoc_set_same. reflexivity.
    + apply String.eqb_neq in E.
      rewrite (Hother n ns) by (simpl; auto).
      apply IH. intros n' ns' Hin. apply Hother. simpl; auto.
Qed.

(** After [name] is opened and [u] written into it, [caches.match] finds
    the copy of a namespace created before [name], if one holds [u], and the
    written entry otherwise. *)
Lemma match_all_put_in_ensure name u r st :
  match_all u (put_in name u r (ensure name st)) =
  match match_before name u st with Some c => Some c | None => Some r end.
Proof.
  induction st as [|[n ns] st IH].
  - unfold ensure, put_in. simpl. rewrite String.eqb_refl. simpl.
    rewrite String.eqb_refl. reflexivity.
  - simpl. destruct (String.eqb n name) eqn:E.
    + apply String.eqb_eq in E. subst n.
      unfold ensure, put_in. simpl. rewrite String.eqb_refl. simpl.
      rewrite String.eqb_refl. simpl. rewrite assoc_assoc_set_same. reflexivity.
    + assert (E' : String.eqb name n = false) by (rewrite String.eqb_sym; exact E).
      assert (Hens : ensure name ((n, ns) :: st) = (n, ns) :: ensure name st).
      { unfold ensure. simpl. rewrite E'. destruct (assoc name st); reflexivity. }
      assert (Hput : forall st', put_in name u r ((n, ns) :: st')
                                 = (n, ns) :: put_in name u r st').
      { intro st'. unfold put_in. simpl. rewrite E'. reflexivity. }
      rewrite Hens, Hput. simpl.
      destruct (assoc u ns); [reflexivity|exact IH].
Qed.

Lemma filter_filter {A} (f g : A -> bool) l :
  filter g (filter f l) = filter (fun x => f x && g x) l.
Proof.
  induction l as [|x l IH]; simpl; [reflexivity|].
  destruct (f x); simpl; [destruct (g x); simpl|]; rewrite IH; reflexivity.
Qed.


(** ** Classification and interception *)

(** C5: an intercepted GET request (method GET, URL starting with "http")
    is answered by the executor of [classify]; [classify] returns
    NetworkFirst exactly when a NetworkFirst pattern occurs in the URL,
    StaleWhileRevalidate exactly when no NetworkFirst pattern but some
    StaleWhileRevalidate pattern occurs, and CacheFirst exactly when neither
    does. *)
Theorem classify_dispatch env req w :
  method req = "GET" ->
  startsWith (url req) "http" = true ->
  on_fetch env req w =
    (let (o, w') := executor env (classify (url req)) req w in (Responded o, w'))
  /\ (classify (url req) = NetworkFirst <->
        matches_any (url req) NETWORK_FIRST = true)
  /\ (classify (url req) = StaleWhileRevalidate <->
        matches_any (url req) NETWORK_FIRST = false /\
        matches_any (url req) STALE_WHILE_REVALIDATE = true)
  /\ (classify (url req) = CacheFirst <->
        matches_any (url req) NETWORK_FIRST = false /\
        matches_any (url req) STALE_WHILE_REVALIDATE = false).
Proof.
  intros Hget Hhttp. unfold matches_any.
  split; [unfold on_fetch; rewrite Hget, Hhttp; reflexivity|].
  unfold classify.
  destruct (existsb _ NETWORK_FIRST); destruct (existsb _ STALE_WHILE_REVALIDATE);
    repeat split; intros; try discriminate; try reflexivity;
    repeat match goal with H : _ /\ _ |- _ => destruct H end; congruence.
Qed.

Lemma classify_dispatch_witness :
  let req := mkRequest "https://fonts.gstatic.com/s/poppins.woff2" "GET" "font" in
  method req = "GET" /\ startsWith (url req) "http" = true /\
  classify (url req) = StaleWhileRevalidate /\
  on_fetch (mkEnv "https://site" (fun _ => None) false false false) req
      (mkWorld [] [] []) =
    (let (o, w') := executor (mkEnv "https://site" (fun _ => None) false false false)
                      (classify (url req)) req (mkWorld [] [] []) in
     (Responded o, w')).
Proof.
  intro req. split; [reflexivity|]. split; [reflexivity|]. split; [reflexivity|].
  apply (classify_dispatch (mkEnv "https://site" (fun _ => None) false false false)
           req (mkWorld [] [] [])); reflexivity.
Defined.

Lemma prefix_append p q s :
  prefix (p ++ q)%string s = true -> prefix p s = true.
Proof.
  revert s. induction p as [|a p IH]; intros s H; [destruct s; reflexivity|].
  destruct s as [|b s]; [discriminate|].
  simpl in *. destruct (Ascii.ascii_dec a b); [apply IH, H|discriminate].
Qed.

Lemma http_scheme_startsWith u : http_scheme u = true -> startsWith u "http" = true.
Proof.
  unfold http_scheme, startsWith. intro H. apply orb_true_iff in H.
  destruct H as [H|H].
  - apply (prefix_append "http" ":"), H.
  - apply (prefix_append "http" "s:"), H.
Qed.

(** C10: the fetch listener answers a request only when its method is GET
    and its URL starts with "http" (every http: and https: URL does; the
    other schemes a worker sees, such as chrome-extension:, data: or blob:,
    do not); every other request is passed through with the storage, the
    trace and the pending refreshes untouched, so nothing is written; and
    [caches.match] never finds a non-GET request. *)
Theorem non_get_pass_through env req w :
  (forall o w', on_fetch env req w = (Responded o, w') ->
     method req = "GET" /\ startsWith (url req) "http" = true)
  /\ (method req = "GET" -> http_scheme (url req) = true ->
      exists o w', on_fetch env req w = (Responded o, w'))
  /\ (method req <> "GET" -> on_fetch env req w = (PassThrough, w))
  /\ (startsWith (url req) "http" = false -> on_fetch env req w = (PassThrough, w))
  /\ (method req <> "GET" -> forall r, fst (cs_match env req w) <> Ok (Some r)).
Proof.
  unfold on_fetch.
  destruct (String.eqb (method req) "GET") eqn:Eg;
    [apply String.eqb_eq in Eg | apply String.eqb_neq in Eg];
    destruct (startsWith (url req) "http") eqn:Eh; simpl.
  - split; [intros o w' H; auto|].
    split; [intros _ _; destruct (executor env _ req w); eauto|].
    split; [intro; contradiction|]. split; [discriminate|]. intro; contradiction.
  - split; [intros o w' H; discriminate|].
    split; [intros _ Hs; apply http_scheme_startsWith in Hs; congruence|].
    split; [intro; contradiction|]. split; [reflexivity|]. intro; contradiction.
  - split; [intros o w' H; discriminate|]. split; [intro; contradiction|].
    split; [reflexivity|]. split; [reflexivity|].
    intros _ r. unfold cs_match, bind, emit; simpl.
    destruct (match_fails env); [discriminate|].
    apply String.eqb_neq in Eg. rewrite Eg. discriminate.
  - split; [intros o w' H; discriminate|]. split; [intro; contradiction|].
    split; [reflexivity|]. split; [reflexivity|].
    intros _ r. unfold cs_match, bind, emit; simpl.
    destruct (match_fails env); [discriminate|].
    apply String.eqb_neq in Eg. rewrite Eg. discriminate.
Qed.

(** ** Cache-first *)

(** C9: when [caches.match] finds the request in some namespace, cache-first
    resolves with that entry and its only effect is the lookup: no fetch, no
    write. *)
Theorem cacheFirst_hit_no_fetch env req w c :
  match_fails env = false ->
  method req = "GET" ->
  match_all (url req) (caches w) = Some c ->
  cacheFirst env req w =
    (Ok (JResp c), mkWorld (caches w) (trace w ++ [EMatch (url req)]) (pending w)).
Proof.
  intros Hm Hg Hc.
  unfold cacheFirst, catch_m, cs_match, bind, emit, get_caches, ret; simpl.
  rewrite Hm, Hg. simpl. rewrite Hc. reflexivity.
Qed.

Lemma cacheFirst_hit_no_fetch_witness :
  let c := mkResponse 200 "OK" "CACHED" in
  let req := mkRequest "https://site/index.html" "GET" "document" in
  let w := mkWorld [(STATIC_CACHE, [("https://site/index.html", c)])] [] [] in
  let env := mkEnv "https://site" (fun _ => Some (mkResponse 200 "OK" "HOME"))
               false false false in
  match_fails env = false /\ method req = "GET" /\
  match_all (url req) (caches w) = Some c /\
  cacheFirst env req w =
    (Ok (JResp c), mkWorld (caches w) (trace w ++ [EMatch (url req)]) (pending w)).
Proof.
  intros c req w env. split; [reflexivity|]. split; [reflexivity|].
  split; [reflexivity|].
  apply cacheFirst_hit_no_fetch; reflexivity.
Defined.

(** ** Activation *)

Lemma delete_all_spec names w :
  delete_all names w =
    (Ok tt,
     mkWorld (filter (fun p : string * namespace => negb (existsb (String.eqb (fst p)) names)) (caches w))
             (trace w ++ flat_map (fun n => [ELog "Deleting old cache:"; EDelete n]) names)
             (pending w)).
Proof.
  revert w. induction names as [|n ns IH]; intro w.
  - simpl. rewrite app_nil_r.
    destruct w as [st tr p]; unfold ret; simpl. f_equal. f_equal.
    induction st as [|x st IHst]; simpl; [reflexivity|]. now rewrite <- IHst.
  - simpl delete_all. unfold bind at 1, log, emit. simpl.
    unfold bind at 1, cs_delete, bind, emit, get_caches, set_caches. simpl.
    rewrite IH. simpl. f_equal. f_equal.
    + rewrite filter_filter. apply filter_ext. intros [k v]; simpl.
      now rewrite negb_orb.
    + now rewrite <- !app_assoc.
Qed.

Lemma existsb_stale_names (st : storage) (p : string * namespace) :
  In p st ->
  existsb (String.eqb (fst p)) (filter is_stale (map fst st)) = is_stale (fst p).
Proof.
  intro Hin. destruct (is_stale (fst p)) eqn:Es.
  - apply existsb_exists. exists (fst p). split; [|apply String.eqb_refl].
    apply filter_In. split; [apply in_map, Hin|exact Es].
  - destruct (existsb _ _) eqn:Ex; [|reflexivity].
    apply existsb_exists in Ex. destruct Ex as [x [Hx Heq]].
    apply filter_In in Hx. apply String.eqb_eq in Heq. subst x.
    destruct Hx as [_ Hx]. congruence.
Qed.

(** C8: activation deletes exactly the namespaces whose name is neither
    [STATIC_CACHE] nor [DYNAMIC_CACHE], in the order [caches.keys] lists
    them; the others are kept with their entries as they were; and the last
    effect is [clients.claim()]. *)
Theorem activate_deletes_stale w :
  activate_handler w =
    (Ok tt,
     mkWorld (filter (fun p : string * namespace => negb (is_stale (fst p))) (caches w))
             (trace w ++ [ELog "Service Worker activating..."; EKeys]
                      ++ flat_map (fun n => [ELog "Deleting old cache:"; EDelete n])
                                  (filter is_stale (map fst (caches w)))
                      ++ [EClaim])
             (pending w)).
Proof.
  destruct w as [st tr p].
  unfold activate_handler, log, bind at 1, emit. simpl.
  unfold bind at 1, emit. simpl.
  unfold bind at 1, get_caches. simpl.
  unfold bind. rewrite delete_all_spec. simpl.
  unfold emit. simpl. f_equal. f_equal.
  - apply filter_ext_in. intros q Hq. simpl. now rewrite existsb_stale_names.
  - now rewrite <- !app_assoc.
Qed.

(** ** Error paths of the executors *)

(** C1: the executors do not always resolve with a response. With the
    network down and nothing cached, stale-while-revalidate resolves with
    [null] (the [.catch] of its background fetch returns [null]), while its
    own outer [catch] falls back to a 503 response; cache-first on a page
    resolves with [undefined] when '/index.html' is not cached; and when
    [caches.match] rejects, cache-first on a page rejects. *)
Theorem executors_non_response_results :
  fst (on_fetch env_offline font_file_req empty_world) = Responded (Ok JNull)
  /\ fst (on_fetch env_offline page_req empty_world) = Responded (Ok JUndefined)
  /\ fst (on_fetch env_down page_req empty_world)
       = Responded (Throw "caches.match rejected").
Proof. vm_compute. repeat split. Qed.

(** ** Install *)

Lemma bind_ok {A B} (m : M A) (f : A -> M B) w a w' :
  m w = (Ok a, w') -> bind m f w = f a w'.
Proof. intro H. unfold bind. now rewrite H. Qed.

Lemma bind_throw {A B} (m : M A) (f : A -> M B) w e w' :
  m w = (Throw e, w') -> bind m f w = (Throw e, w').
Proof. intro H. unfold bind. now rewrite H. Qed.

Lemma catch_throw {A} (m : M A) h w e w' :
  m w = (Throw e, w') -> catch_m m h w = h e w'.
Proof. intro H. unfold catch_m. now rewrite H. Qed.

Lemma emit_fetches us w :
  fold_right (fun u m => emit (EFetch u);;; m) (ret tt) us w =
    (Ok tt, mkWorld (caches w) (trace w ++ map EFetch us) (pending w)).
Proof.
  revert w. induction us as [|u us IH]; intro w; simpl.
  - destruct w; unfold ret; simpl. now rewrite app_nil_r.
  - unfold bind at 1, emit. simpl. rewrite IH. simpl. now rewrite <- app_assoc.
Qed.

(** [cache.addAll] that meets a failed fetch writes nothing. *)
Lemma addAll_fail env name urls w :
  all_ok (map (net env) (map (resolve env) urls)) = None ->
  addAll env name urls w =
    (Throw "TypeError: addAll failed",
     mkWorld (caches w) (trace w ++ map EFetch (map (resolve env) urls)) (pending w)).
Proof.
  intro H. unfold addAll. erewrite bind_ok by apply emit_fetches.
  now rewrite H.
Qed.

(** C2, as stated, fails: with every manifest fetch failing, the [catch] of
    the install listener fulfils the [waitUntil] promise, so the install step
    succeeds. *)
Lemma install_failure_counterexample :
  all_ok (map (net env_offline) (map (resolve env_offline) STATIC_ASSETS)) = None
  /\ fst (install_event env_offline empty_world) = true.
Proof. vm_compute. split; reflexivity. Qed.

(** C2, amended: when a manifest asset fails to fetch, the failure is logged
    and caught, so the install step succeeds; the static namespace is opened
    but no asset of the manifest is written, each manifest URL is fetched
    exactly once (no retry), and [skipWaiting] is not signalled. *)
Theorem install_failure_caught env w :
  open_fails env = false ->
  all_ok (map (net env) (map (resolve env) STATIC_ASSETS)) = None ->
  install_event env w =
    (true,
     mkWorld (ensure STATIC_CACHE (caches w))
       (trace w ++ [ELog "Service Worker installing..."; EOpen STATIC_CACHE;
                    ELog "Caching static assets"]
                ++ map EFetch (map (resolve env) STATIC_ASSETS)
                ++ [ELog "Failed to cache static assets:"])
       (pending w)).
Proof.
  intros Ho Hf. unfold install_event, install_handler.
  erewrite bind_ok by reflexivity.
  erewrite catch_throw.
  2: {
    erewrite bind_ok.
    2: { unfold cs_open, bind, emit, get_caches, set_caches. simpl.
         rewrite Ho. reflexivity. }
    erewrite bind_ok by reflexivity.
    erewrite bind_throw by (apply addAll_fail, Hf).
    reflexivity. }
  unfold log, emit. simpl. rewrite <- !app_assoc. reflexivity.
Qed.

Lemma install_failure_caught_witness :
  open_fails env_offline = false /\
  all_ok (map (net env_offline) (map (resolve env_offline) STATIC_ASSETS)) = None /\
  install_event env_offline empty_world =
    (true,
     mkWorld (ensure STATIC_CACHE (caches empty_world))
       (trace empty_world
          ++ [ELog "Service Worker installing..."; EOpen STATIC_CACHE;
              ELog "Caching static assets"]
          ++ map EFetch (map (resolve env_offline) STATIC_ASSETS)
          ++ [ELog "Failed to cache static assets:"])
       (pending empty_world)).
Proof.
  split; [reflexivity|]. split; [vm_compute; reflexivity|].
  apply install_failure_caught; [reflexivity|vm_compute; reflexivity].
Defined.

(** ** Cache write failures *)

(** C3 fails on a defect of the code: cache-first obtains the network
    response for an image, its awaited [cache.put] rejects inside the [try],
    and the [catch] meant as the offline fallback resolves the request with
    the 503 offline response instead of the response already obtained. *)
Lemma write_failure_counterexample :
  net (env_answering home true) (url image_req) = Some home
  /\ fst (on_fetch (env_answering home true) image_req empty_world)
       = Responded (Ok (JResp offline503))
  /\ offline503 <> home.
Proof.
  split; [reflexivity|]. split; [vm_compute; reflexivity|].
  unfold offline503, home. congruence.
Qed.

Ltac run_executor :=
  repeat progress (unfold cacheFirst, networkFirst, staleWhileRevalidate, swr_refresh,
    put_unawaited, defer, settle, run_refreshes, catch_m, bind, cs_match_url,
    cs_match, cs_open,
    cache_put, fetch, emit, get_caches, set_caches, ret, throw, log; simpl).

(** Simplify with the hypotheses that fix the environment and the cache. *)
Ltac crunch :=
  repeat progress (simpl;
    repeat match goal with H : ?x = _ |- context [?x] => rewrite H end;
    rewrite ?match_all_ensure).

(** C3, the defect in general: when the write of a 200 response rejects,
    cache-first and network-first log the failure in their [catch] and
    resolve with their offline fallback (cache-first: the cached '/index.html' for a page, the
    503 response otherwise; network-first: the cached copy of the request,
    or the 503 response), not with the network response; the
    stale-while-revalidate write is not awaited, so its failure leaves the
    result (the cached copy, or else the network response) unchanged. *)
Theorem write_failure_outcomes env req w nr :
  open_fails env = false -> match_fails env = false -> put_fails env = true ->
  method req = "GET" -> net env (url req) = Some nr -> status nr = 200%Z ->
  (match_all (url req) (caches w) = None ->
     fst (cacheFirst env req w) =
       Ok (if String.eqb (destination req) "document"
           then opt_js (match_all (resolve env "/index.html") (caches w))
           else JResp offline503)
     /\ In (ELog "Cache-first strategy failed:") (trace (snd (cacheFirst env req w))))
  /\ fst (networkFirst env req w) =
       Ok (match match_all (url req) (caches w) with
           | Some c => JResp c
           | None => JResp offline503
           end)
  /\ In (ELog "Network-first strategy failed:") (trace (snd (networkFirst env req w)))
  /\ fst (staleWhileRevalidate env req w) =
       Ok (JResp (match match_all (url req) (caches w) with
                  | Some c => c
                  | None => nr
                  end)).
Proof.
  intros Ho Hm Hp Hg Hn Hs. destruct w as [st tr p].
  run_executor. crunch.
  split; [|split; [|split]].
  - intro Hmiss. crunch.
    destruct (String.eqb (destination req) "document"); crunch.
    + split; [reflexivity|].
      apply in_or_app; left. apply in_or_app; right. simpl; auto.
    + split; [reflexivity|]. apply in_or_app; right. simpl; auto.
  - destruct (match_all (url req) st); reflexivity.
  - destruct (match_all (url req) st); simpl;
      apply in_or_app; left; apply in_or_app; right; simpl; auto.
  - destruct (match_all (url req) st); reflexivity.
Qed.

Lemma write_failure_outcomes_witness :
  open_fails (env_answering home true) = false
  /\ match_fails (env_answering home true) = false
  /\ put_fails (env_answering home true) = true
  /\ method image_req = "GET"
  /\ net (env_answering home true) (url image_req) = Some home
  /\ status home = 200%Z
  /\ fst (networkFirst (env_answering home true) image_req empty_world)
       = Ok (JResp offline503).
Proof.
  do 6 (split; [reflexivity|]).
  exact (proj1 (proj2 (write_failure_outcomes (env_answering home true) image_req
           empty_world home eq_refl eq_refl eq_refl eq_refl eq_refl eq_refl))).
Defined.

(** ** Which responses are written *)

(** C4, as stated, fails: network-first receives a 203 response, a success
    status, and the dynamic namespace is not created, let alone written. *)
Lemma non_200_not_stored_counterexample :
  ok_status (status non_authoritative) = true
  /\ fst (networkFirst (env_answering non_authoritative false) contact_req empty_world)
       = Ok (JResp non_authoritative)
  /\ caches (snd (networkFirst (env_answering non_authoritative false) contact_req
                    empty_world)) = [].
Proof. vm_compute. repeat split. Qed.

(** C4, amended: with storage working, the three executors write a network
    response into the dynamic namespace exactly when its status is 200, and
    write nothing else: network-first always, cache-first on a miss, and
    stale-while-revalidate once its background fetch has settled (the
    namespace itself is opened, so created if absent, by
    stale-while-revalidate before the fetch). *)
Theorem stored_iff_200 env req w nr :
  open_fails env = false -> match_fails env = false -> put_fails env = false ->
  method req = "GET" -> net env (url req) = Some nr ->
  let written (st : storage) :=
    if Z.eqb (status nr) 200
    then put_in DYNAMIC_CACHE (url req) nr (ensure DYNAMIC_CACHE st) else st in
  let written_swr (st : storage) :=
    if Z.eqb (status nr) 200
    then put_in DYNAMIC_CACHE (url req) nr (ensure DYNAMIC_CACHE st)
    else ensure DYNAMIC_CACHE st in
  caches (snd (networkFirst env req w)) = written (caches w)
  /\ (match_all (url req) (caches w) = None ->
      caches (snd (cacheFirst env req w)) = written (caches w))
  /\ (pending w = [] ->
      caches (snd (settle env (snd (staleWhileRevalidate env req w))))
        = written_swr (caches w)).
Proof.
  intros Ho Hm Hp Hg Hn written written_swr.
  subst written written_swr. destruct w as [st tr p]. simpl.
  split; [|split].
  - run_executor. crunch. destruct (Z.eqb (status nr) 200); reflexivity.
  - intro Hmiss. run_executor. crunch.
    destruct (Z.eqb (status nr) 200); reflexivity.
  - intro Hp0. subst p. run_executor. crunch.
    destruct (match_all (url req) st); run_executor; crunch;
      destruct (Z.eqb (status nr) 200); reflexivity.
Qed.

Lemma stored_iff_200_witness :
  open_fails (env_answering fresh false) = false
  /\ match_fails (env_answering fresh false) = false
  /\ put_fails (env_answering fresh false) = false
  /\ method font_css_req = "GET"
  /\ net (env_answering fresh false) (url font_css_req) = Some fresh
  /\ caches (snd (networkFirst (env_answering fresh false) font_css_req installed_world))
       = put_in DYNAMIC_CACHE font_css_url fresh (caches installed_world).
Proof.
  do 5 (split; [reflexivity|]).
  exact (proj1 (stored_iff_200 (env_answering fresh false) font_css_req
           installed_world fresh eq_refl eq_refl eq_refl eq_refl eq_refl)).
Defined.

Lemma in_ensure_other (st : storage) name n ns :
  In (n, ns) (ensure name st) -> n <> name -> In (n, ns) st.
Proof.
  unfold ensure. destruct (assoc name st); [auto|].
  intros H Hn. apply in_app_or in H. destruct H as [H|[H|[]]]; [exact H|].
  inversion H. congruence.
Qed.

Lemma fetch_count_app tr tr' :
  fetch_count (tr ++ tr') = fetch_count tr + fetch_count tr'.
Proof. unfold fetch_count. now rewrite filter_app, length_app. Qed.

(** ** Stale-while-revalidate *)

(** C6, as stated, fails: the web-font stylesheet is classified
    stale-while-revalidate and sits in the static namespace after install;
    the refresh writes the new bytes into the dynamic namespace, but
    [caches.match] still finds the static copy first, so a lookup after the
    refresh settles yields the old bytes. *)
Lemma swr_static_shadow_counterexample :
  classify font_css_url = StaleWhileRevalidate
  /\ fst (staleWhileRevalidate (env_answering fresh false) font_css_req installed_world)
       = Ok (JResp stale)
  /\ match_all font_css_url
       (caches (snd (settle (env_answering fresh false)
          (snd (staleWhileRevalidate (env_answering fresh false) font_css_req
                  installed_world))))) = Some stale
  /\ body stale <> body fresh.
Proof. vm_compute. repeat split. discriminate. Qed.

(** C6, amended: with a cached copy, stale-while-revalidate resolves with
    it at once, whatever the network does; it issues exactly one fetch,
    left pending; once that fetch settles with status 200 the dynamic
    namespace holds the new bytes, and [caches.match] then yields the copy
    of the first namespace created before the dynamic one that holds the
    URL, if there is one, and the new bytes otherwise. *)
Theorem swr_two_phase env req w c nr :
  open_fails env = false -> match_fails env = false -> put_fails env = false ->
  method req = "GET" -> pending w = [] ->
  match_all (url req) (caches w) = Some c ->
  net env (url req) = Some nr -> status nr = 200%Z ->
  let w1 := snd (staleWhileRevalidate env req w) in
  let w2 := snd (settle env w1) in
  fst (staleWhileRevalidate env req w) = Ok (JResp c)
  /\ (forall env', open_fails env' = false -> match_fails env' = false ->
        staleWhileRevalidate env' req w = staleWhileRevalidate env req w)
  /\ pending w1 = [req]
  /\ trace w1 = trace w ++ [EOpen DYNAMIC_CACHE; EMatch (url req); EFetch (url req)]
  /\ trace w2 = trace w1 ++ [EPut DYNAMIC_CACHE (url req)]
  /\ fetch_count (trace w2) = S (fetch_count (trace w))
  /\ option_map (assoc (url req)) (assoc DYNAMIC_CACHE (caches w2)) = Some (Some nr)
  /\ match_all (url req) (caches w2) =
       match match_before DYNAMIC_CACHE (url req) (caches w) with
       | Some c' => Some c'
       | None => Some nr
       end.
Proof.
  intros Ho Hm Hp Hg Hpend Hc Hn Hs w1 w2.
  destruct w as [st tr p]. simpl in Hpend, Hc. subst p.
  assert (E1 : staleWhileRevalidate env req (mkWorld st tr []) =
     (Ok (JResp c),
      mkWorld (ensure DYNAMIC_CACHE st)
        (tr ++ [EOpen DYNAMIC_CACHE; EMatch (url req); EFetch (url req)]) [req])).
  { run_executor. crunch. now rewrite <- !app_assoc. }
  assert (E2 : settle env w1 =
     (Ok tt,
      mkWorld (put_in DYNAMIC_CACHE (url req) nr (ensure DYNAMIC_CACHE st))
        ((tr ++ [EOpen DYNAMIC_CACHE; EMatch (url req); EFetch (url req)])
            ++ [EPut DYNAMIC_CACHE (url req)]) [])).
  { subst w1. rewrite E1. run_executor. crunch. reflexivity. }
  subst w2. rewrite E2. subst w1. rewrite E1. simpl.
  split; [reflexivity|]. split.
  { intros env' Ho' Hm'. rewrite <- E1. run_executor. crunch. reflexivity. }
  split; [reflexivity|]. split; [reflexivity|]. split; [reflexivity|].
  split; [rewrite !fetch_count_app; unfold fetch_count; simpl; lia|].
  split; [apply assoc_put_in|].
  apply match_all_put_in_ensure.
Qed.

Lemma swr_two_phase_witness :
  open_fails (env_answering fresh false) = false
  /\ match_fails (env_answering fresh false) = false
  /\ put_fails (env_answering fresh false) = false
  /\ method font_file_req = "GET" /\ pending refreshed_world = []
  /\ match_all (url font_file_req) (caches refreshed_world) = Some stale
  /\ net (env_answering fresh false) (url font_file_req) = Some fresh
  /\ status fresh = 200%Z
  /\ fst (staleWhileRevalidate (env_answering fresh false) font_file_req refreshed_world)
       = Ok (JResp stale)
  /\ match_all (url font_file_req)
       (caches (snd (settle (env_answering fresh false)
          (snd (staleWhileRevalidate (env_answering fresh false) font_file_req
                  refreshed_world))))) = Some fresh.
Proof.
  do 8 (split; [vm_compute; reflexivity|]).
  pose proof (swr_two_phase (env_answering fresh false) font_file_req refreshed_world
                stale fresh eq_refl eq_refl eq_refl eq_refl eq_refl eq_refl eq_refl
                eq_refl) as H.
  cbv zeta in H.
  destruct H as [H1 [_ [_ [_ [_ [_ [_ H8]]]]]]].
  split; [exact H1|]. rewrite H8. vm_compute. reflexivity.
Defined.

(** ** Network-first *)

(** C7, as stated, fails: network-first obtains a 203 response for the
    contact page and returns it, but does not write it, so a later
    [caches.match] finds nothing. *)
Lemma network_first_203_counterexample :
  ok_status (status non_authoritative) = true
  /\ classify (url contact_req) = NetworkFirst
  /\ fst (networkFirst (env_answering non_authoritative false) contact_req empty_world)
       = Ok (JResp non_authoritative)
  /\ match_all (url contact_req)
       (caches (snd (networkFirst (env_answering non_authoritative false) contact_req
                       empty_world))) = None.
Proof. vm_compute. repeat split. Qed.

(** C7, amended: network-first issues its fetch before any cache access,
    and reads the cache only when the fetch rejects or, for a status-200
    response, when [caches.open] or [cache.put] rejects. A response with any
    other status is returned and nothing is written. A status-200 response
    whose write succeeds is returned, the dynamic namespace then holds it,
    and [caches.match] yields the copy of the first namespace created before
    the dynamic one that holds the URL, if there is one, and the response
    otherwise. *)
Theorem networkFirst_roundtrip env req w :
  (exists rest,
     trace (snd (networkFirst env req w)) = trace w ++ EFetch (url req) :: rest)
  /\ (forall nr, net env (url req) = Some nr -> status nr <> 200%Z ->
      networkFirst env req w =
        (Ok (JResp nr), mkWorld (caches w) (trace w ++ [EFetch (url req)]) (pending w)))
  /\ (forall nr,
      open_fails env = false -> put_fails env = false ->
      method req = "GET" -> net env (url req) = Some nr -> status nr = 200%Z ->
      networkFirst env req w =
        (Ok (JResp nr),
         mkWorld (put_in DYNAMIC_CACHE (url req) nr (ensure DYNAMIC_CACHE (caches w)))
           (trace w ++ [EFetch (url req); EOpen DYNAMIC_CACHE; EPut DYNAMIC_CACHE (url req)])
           (pending w))
      /\ option_map (assoc (url req))
           (assoc DYNAMIC_CACHE (caches (snd (networkFirst env req w)))) = Some (Some nr)
      /\ match_all (url req) (caches (snd (networkFirst env req w))) =
           match match_before DYNAMIC_CACHE (url req) (caches w) with
           | Some c => Some c
           | None => Some nr
           end)
  /\ (forall rest,
      trace (snd (networkFirst env req w)) = trace w ++ rest ->
      In (EMatch (url req)) rest ->
      net env (url req) = None
      \/ exists nr, net env (url req) = Some nr /\ status nr = 200%Z
                    /\ (open_fails env = true \/ put_fails env = true
                        \/ method req <> "GET")).
Proof.
  assert (Hnon : forall nr, net env (url req) = Some nr -> status nr <> 200%Z ->
      networkFirst env req w =
        (Ok (JResp nr), mkWorld (caches w) (trace w ++ [EFetch (url req)]) (pending w))).
  { intros nr Hn Hs. apply Z.eqb_neq in Hs.
    destruct w as [st tr p]. run_executor. crunch. reflexivity. }
  assert (Hok : forall nr,
      open_fails env = false -> put_fails env = false ->
      method req = "GET" -> net env (url req) = Some nr -> status nr = 200%Z ->
      networkFirst env req w =
        (Ok (JResp nr),
         mkWorld (put_in DYNAMIC_CACHE (url req) nr (ensure DYNAMIC_CACHE (caches w)))
           (trace w ++ [EFetch (url req); EOpen DYNAMIC_CACHE; EPut DYNAMIC_CACHE (url req)])
           (pending w))).
  { intros nr Ho Hp Hg Hn Hs.
    destruct w as [st tr p]. run_executor. crunch. now rewrite <- !app_assoc. }
  split; [|split; [exact Hnon|split]].
  - destruct w as [st tr p]. run_executor.
    destruct (net env (url req)) as [nr|]; simpl.
    + destruct (Z.eqb (status nr) 200); simpl.
      * destruct (open_fails env); simpl.
        -- destruct (match_fails env); simpl;
             [|destruct (negb (String.eqb (method req) "GET")); simpl;
               [|destruct (match_all (url req) st); simpl]];
             eexists; now rewrite <- !app_assoc.
        -- destruct (put_fails env); simpl.
           ++ destruct (match_fails env); simpl;
                [|destruct (negb (String.eqb (method req) "GET")); simpl;
                  [|destruct (match_all (url req) (ensure DYNAMIC_CACHE st)); simpl]];
                eexists; now rewrite <- !app_assoc.
           ++ destruct (negb (String.eqb (method req) "GET")); simpl.
              ** destruct (match_fails env); simpl;
                   [|destruct (negb (String.eqb (method req) "GET")); simpl;
                     [|destruct (match_all (url req) (ensure DYNAMIC_CACHE st)); simpl]];
                   eexists; now rewrite <- !app_assoc.
              ** eexists; now rewrite <- !app_assoc.
      * eexists; reflexivity.
    + destruct (match_fails env); simpl;
        [|destruct (negb (String.eqb (method req) "GET")); simpl;
          [|destruct (match_all (url req) st); simpl]];
        eexists; now rewrite <- !app_assoc.
  - intros nr Ho Hp Hg Hn Hs. rewrite (Hok nr Ho Hp Hg Hn Hs). simpl.
    split; [reflexivity|]. split; [apply assoc_put_in|].
    apply match_all_put_in_ensure.
  - intros rest Htr Hin.
    destruct (net env (url req)) as [nr|] eqn:Hn; [right|left; reflexivity].
    destruct (Z.eq_dec (status nr) 200) as [Hs|Hs].
    + exists nr. split; [reflexivity|]. split; [exact Hs|].
      destruct (open_fails env) eqn:Ho; [left; reflexivity|].
      destruct (put_fails env) eqn:Hp; [right; left; reflexivity|].
      destruct (String.eqb (method req) "GET") eqn:Hg.
      * apply String.eqb_eq in Hg. exfalso.
        rewrite (Hok nr eq_refl eq_refl Hg eq_refl Hs) in Htr. simpl in Htr.
        apply app_inv_head in Htr. subst rest. simpl in Hin.
        destruct Hin as [H|[H|[H|[]]]]; discriminate.
      * right; right. apply String.eqb_neq. exact Hg.
    + exfalso. rewrite (Hnon nr eq_refl Hs) in Htr. simpl in Htr.
      apply app_inv_head in Htr. subst rest. simpl in Hin.
      destruct Hin as [H|[]]; discriminate.
Qed.

Lemma networkFirst_roundtrip_witness :
  open_fails (env_answering home false) = false
  /\ put_fails (env_answering home false) = false
  /\ method contact_req = "GET"
  /\ net (env_answering home false) (url contact_req) = Some home
  /\ status home = 200%Z
  /\ status non_authoritative <> 200%Z
  /\ match_all (url contact_req)
       (caches (snd (networkFirst (env_answering home false) contact_req empty_world)))
     = Some home
  /\ snd (networkFirst (env_answering non_authoritative false) contact_req empty_world)
     = mkWorld [] [EFetch (url contact_req)] [].
Proof.
  do 5 (split; [reflexivity|]).
  assert (H203 : status non_authoritative <> 200%Z) by (simpl; lia).
  split; [exact H203|].
  destruct (networkFirst_roundtrip (env_answering home false) contact_req empty_world)
    as [_ [_ [Hok _]]].
  destruct (Hok home eq_refl eq_refl eq_refl eq_refl eq_refl) as [_ [_ H]].
  split; [rewrite H; vm_compute; reflexivity|].
  destruct (networkFirst_roundtrip (env_answering non_authoritative false) contact_req
              empty_world) as [_ [Hnon _]].
  rewrite (Hnon non_authoritative eq_refl H203). reflexivity.
Defined.

(** ** Writes stay in the dynamic namespace *)

Lemma assoc_app_ne {A} k k' (v : A) l :
  k <> k' -> assoc k (l ++ [(k', v)]) = assoc k l.
Proof.
  intro Hne. induction l as [|[k0 v0] l IH]; simpl.
  - apply String.eqb_neq in Hne. now rewrite Hne.
  - destruct (String.eqb k k0); [reflexivity|exact IH].
Qed.

Lemma assoc_assoc_set_ne {A} k k' (v : A) l :
  k <> k' -> assoc k (assoc_set k' v l) = assoc k l.
Proof.
  intro Hne. induction l as [|[k0 v0] l IH]; simpl.
  - apply String.eqb_neq in Hne. now rewrite Hne.
  - destruct (String.eqb k' k0) eqn:E; simpl.
    + apply String.eqb_eq in E. subst k0.
      apply String.eqb_neq in Hne. now rewrite Hne.
    + destruct (String.eqb k k0); [reflexivity|exact IH].
Qed.

Lemma kept_ret {A} (a : A) : others_kept (ret a).
Proof. intros w n _. reflexivity. Qed.

Lemma kept_throw {A} e : others_kept (A := A) (throw e).
Proof. intros w n _. reflexivity. Qed.

Lemma kept_emit e : others_kept (emit e).
Proof. intros w n _. reflexivity. Qed.

Lemma kept_get : others_kept get_caches.
Proof. intros w n _. reflexivity. Qed.

Lemma kept_defer req : others_kept (defer req).
Proof. intros w n _. reflexivity. Qed.

Lemma kept_bind {A B} (m : M A) (f : A -> M B) :
  others_kept m -> (forall a, others_kept (f a)) -> others_kept (bind m f).
Proof.
  intros Hm Hf w n Hn. unfold bind.
  pose proof (Hm w n Hn) as E. destruct (m w) as [[a|e] w1]; simpl in *.
  - rewrite Hf by exact Hn. exact E.
  - exact E.
Qed.

Lemma kept_catch {A} (m : M A) h :
  others_kept m -> (forall e, others_kept (h e)) -> others_kept (catch_m m h).
Proof.
  intros Hm Hh w n Hn. unfold catch_m.
  pose proof (Hm w n Hn) as E. destruct (m w) as [[a|e] w1]; simpl in *.
  - exact E.
  - rewrite Hh by exact Hn. exact E.
Qed.

Lemma kept_open_dynamic env : others_kept (cs_open env DYNAMIC_CACHE).
Proof.
  intros w n Hn. unfold cs_open, bind, emit, get_caches, set_caches, throw.
  simpl. destruct (open_fails env); [reflexivity|]. simpl.
  unfold ensure. destruct (assoc DYNAMIC_CACHE (caches w)); [reflexivity|].
  now apply assoc_app_ne.
Qed.

Lemma kept_put_dynamic env req r : others_kept (cache_put env DYNAMIC_CACHE req r).
Proof.
  intros w n Hn. unfold cache_put, bind, emit, get_caches, set_caches, throw, ret.
  simpl. destruct (put_fails env); [reflexivity|].
  destruct (negb _); [reflexivity|]. simpl.
  unfold put_in. now apply assoc_assoc_set_ne.
Qed.

Lemma kept_match env req : others_kept (cs_match env req).
Proof.
  intros w n Hn. unfold cs_match, bind, emit, get_caches, throw, ret. simpl.
  destruct (match_fails env); [reflexivity|]. destruct (negb _); reflexivity.
Qed.

Ltac kept :=
  repeat first
    [ apply kept_open_dynamic | apply kept_put_dynamic | apply kept_match
    | apply kept_ret | apply kept_throw | apply kept_emit | apply kept_get
    | apply kept_defer
    | apply kept_bind; intros
    | apply kept_catch; intros
    | match goal with
      | |- others_kept (if ?b then _ else _) => destruct b
      | |- others_kept (match ?x with _ => _ end) => destruct x
      end ].

Lemma kept_swr_refresh env req : others_kept (swr_refresh env req).
Proof. unfold swr_refresh, put_unawaited, log. kept. Qed.

Lemma kept_run_refreshes env l : others_kept (run_refreshes env l).
Proof.
  induction l as [|r l IH]; simpl; [apply kept_ret|].
  apply kept_bind; [apply kept_swr_refresh|intros; exact IH].
Qed.

(** Cache-first, network-first and stale-while-revalidate, including the
    settling of its background refreshes, never change a namespace other
    than [DYNAMIC_CACHE]: the static namespace filled at install, and any
    other namespace, keeps its entries whatever the network and the storage
    do. *)
Theorem executors_write_only_dynamic env req w n :
  n <> DYNAMIC_CACHE ->
  assoc n (caches (snd (cacheFirst env req w))) = assoc n (caches w)
  /\ assoc n (caches (snd (networkFirst env req w))) = assoc n (caches w)
  /\ assoc n (caches (snd (staleWhileRevalidate env req w))) = assoc n (caches w)
  /\ assoc n (caches (snd (settle env w))) = assoc n (caches w).
Proof.
  intro Hn. split; [|split; [|split]].
  - revert w n Hn. change (others_kept (cacheFirst env req)).
    unfold cacheFirst, cs_match_url, log. kept.
  - revert w n Hn. change (others_kept (networkFirst env req)).
    unfold networkFirst, log. kept.
  - revert w n Hn. change (others_kept (staleWhileRevalidate env req)).
    unfold staleWhileRevalidate, log. kept. apply kept_swr_refresh.
  - unfold settle. rewrite (kept_run_refreshes env (pending w) _ n Hn). reflexivity.
Qed.

Lemma executors_write_only_dynamic_witness :
  STATIC_CACHE <> DYNAMIC_CACHE
  /\ assoc STATIC_CACHE
       (caches (snd (staleWhileRevalidate (env_answering fresh false) font_css_req
                       installed_world)))
     = assoc STATIC_CACHE (caches installed_world).
Proof.
  split; [discriminate|].
  exact (proj1 (proj2 (proj2 (executors_write_only_dynamic (env_answering fresh false)
           font_css_req installed_world STATIC_CACHE ltac:(discriminate))))).
Defined.

(** ** Fetches per request *)

(** Split on every environment flag, cache lookup and network answer the
    unfolded executors test. *)
Ltac case_env :=
  repeat (simpl; match goal with
    | |- context [match ?x with _ => _ end] =>
        lazymatch type of x with
        | bool => destruct x
        | option _ => destruct x
        end
    end).

Ltac count_fetches :=
  unfold new_fetches; simpl; rewrite ?fetch_count_app; unfold fetch_count; simpl; lia.

Lemma swr_refresh_no_fetch env req w :
  fetch_count (trace (snd (swr_refresh env req w))) = fetch_count (trace w).
Proof.
  destruct w as [st tr p]. run_executor. case_env; simpl;
    rewrite ?fetch_count_app; unfold fetch_count; simpl; lia.
Qed.

Lemma run_refreshes_no_fetch env l w :
  fetch_count (trace (snd (run_refreshes env l w))) = fetch_count (trace w).
Proof.
  revert w. induction l as [|r l IH]; intro w; [reflexivity|].
  simpl. unfold bind.
  pose proof (swr_refresh_no_fetch env r w) as E.
  destruct (swr_refresh env r w) as [[a|e] w1]; simpl in *.
  - rewrite IH. exact E.
  - exact E.
Qed.

(** Each executor issues at most one network fetch per request: cache-first
    none or one, network-first and stale-while-revalidate exactly one (its
    outer [catch] refetches only when [caches.open] or [caches.match]
    rejected before the first fetch was issued); settling the background
    refreshes issues none. *)
Theorem one_fetch_per_request env req w :
  new_fetches (cacheFirst env req) w <= 1
  /\ new_fetches (networkFirst env req) w = 1
  /\ new_fetches (staleWhileRevalidate env req) w = 1
  /\ new_fetches (settle env) w = 0.
Proof.
  destruct w as [st tr p]. split; [|split; [|split]].
  - unfold new_fetches. run_executor. case_env; count_fetches.
  - unfold new_fetches. run_executor. case_env; count_fetches.
  - unfold new_fetches. run_executor. case_env; count_fetches.
  - unfold new_fetches, settle. rewrite run_refreshes_no_fetch. simpl. lia.
Qed.

(** ** Cache-first round trip and offline fallbacks *)

Lemma match_all_none_assoc u (st : storage) n ns :
  match_all u st = None -> In (n, ns) st -> assoc u ns = None.
Proof.
  induction st as [|[n0 ns0] st IH]; simpl; [intros _ []|].
  destruct (assoc u ns0) eqn:E; [discriminate|].
  intros H [Hin|Hin]; [inversion Hin; subst; exact E|exact (IH H Hin)].
Qed.

Lemma in_ensure (st : storage) name n ns :
  In (n, ns) (ensure name st) -> In (n, ns) st \/ (n = name /\ ns = []).
Proof.
  unfold ensure. destruct (assoc name st); [auto|].
  intro H. apply in_app_or in H. destruct H as [H|[H|[]]]; [auto|].
  inversion H; auto.
Qed.

(** A cache-first miss answered 200 by the network resolves with the network
    response and writes it; the same request then resolves with that
    response from the cache, without fetching. *)
Theorem cacheFirst_miss_then_hit env req w nr :
  open_fails env = false -> match_fails env = false -> put_fails env = false ->
  method req = "GET" -> match_all (url req) (caches w) = None ->
  net env (url req) = Some nr -> status nr = 200%Z ->
  let w1 := snd (cacheFirst env req w) in
  fst (cacheFirst env req w) = Ok (JResp nr)
  /\ new_fetches (cacheFirst env req) w = 1
  /\ fst (cacheFirst env req w1) = Ok (JResp nr)
  /\ new_fetches (cacheFirst env req) w1 = 0.
Proof.
  intros Ho Hm Hp Hg Hmiss Hn Hs w1.
  destruct w as [st tr p]. simpl in Hmiss.
  assert (E : cacheFirst env req (mkWorld st tr p) =
    (Ok (JResp nr),
     mkWorld (put_in DYNAMIC_CACHE (url req) nr (ensure DYNAMIC_CACHE st))
       (tr ++ [EMatch (url req); EFetch (url req); EOpen DYNAMIC_CACHE;
               EPut DYNAMIC_CACHE (url req)]) p)).
  { run_executor. crunch. now rewrite <- !app_assoc. }
  assert (Hhit : match_all (url req)
      (put_in DYNAMIC_CACHE (url req) nr (ensure DYNAMIC_CACHE st)) = Some nr).
  { apply match_all_put_in. intros n ns Hin Hne.
    destruct (in_ensure st DYNAMIC_CACHE n ns Hin) as [H|[H _]];
      [exact (match_all_none_assoc _ _ _ _ Hmiss H)|contradiction]. }
  subst w1. unfold new_fetches. rewrite E. simpl.
  split; [reflexivity|]. split; [rewrite fetch_count_app; unfold fetch_count; simpl; lia|].
  run_executor. rewrite Hm, Hg. simpl. rewrite Hhit. simpl.
  split; [reflexivity|]. rewrite fetch_count_app. unfold fetch_count; simpl. lia.
Qed.

Lemma cacheFirst_miss_then_hit_witness :
  fst (cacheFirst (env_answering home false) page_req
         (snd (cacheFirst (env_answering home false) page_req empty_world)))
  = Ok (JResp home).
Proof.
  exact (proj1 (proj2 (proj2 (cacheFirst_miss_then_hit (env_answering home false)
           page_req empty_world home eq_refl eq_refl eq_refl eq_refl eq_refl eq_refl
           eq_refl)))).
Defined.

(** With the network unreachable, cache-first on a miss resolves with the
    cached '/index.html' for a page request and with the 503 "Offline"
    response otherwise, and network-first resolves with the cached copy of
    the request or else the 503 response; neither writes to the storage. *)
Theorem offline_fallbacks env req w :
  match_fails env = false -> method req = "GET" -> net env (url req) = None ->
  (match_all (url req) (caches w) = None ->
     fst (cacheFirst env req w) =
       Ok (if String.eqb (destination req) "document"
           then opt_js (match_all (resolve env "/index.html") (caches w))
           else JResp offline503)
     /\ caches (snd (cacheFirst env req w)) = caches w)
  /\ fst (networkFirst env req w) =
       Ok (match match_all (url req) (caches w) with
           | Some c => JResp c
           | None => JResp offline503
           end)
  /\ caches (snd (networkFirst env req w)) = caches w.
Proof.
  intros Hm Hg Hn. destruct w as [st tr p]. simpl.
  split; [|split].
  - intro Hmiss. run_executor. crunch.
    destruct (String.eqb (destination req) "document"); crunch; auto.
  - run_executor. crunch. destruct (match_all (url req) st); reflexivity.
  - run_executor. crunch. destruct (match_all (url req) st); reflexivity.
Qed.

Lemma offline_fallbacks_witness :
  fst (networkFirst env_offline contact_req empty_world) = Ok (JResp offline503).
Proof.
  exact (proj1 (proj2 (offline_fallbacks env_offline contact_req empty_world
           eq_refl eq_refl eq_refl))).
Defined.

(** ** Stale-while-revalidate without a cached copy *)



(** When [caches.open] rejects, stale-while-revalidate falls into its
    [catch]: it fetches the request once and resolves with the network
    response, or with a 503 "Offline" response if that fetch rejects; the
    storage is untouched and nothing is left pending. *)
Theorem swr_open_failure_refetches env req w :
  open_fails env = true ->
  fst (staleWhileRevalidate env req w) =
    Ok (JResp (match net env (url req) with Some r => r | None => offline503_plain end))
  /\ caches (snd (staleWhileRevalidate env req w)) = caches w
  /\ pending (snd (staleWhileRevalidate env req w)) = pending w
  /\ new_fetches (staleWhileRevalidate env req) w = 1.
Proof.
  intro Ho. destruct w as [st tr p]. unfold new_fetches. run_executor. crunch.
  destruct (net env (url req)); simpl;
    (split; [reflexivity|]); (split; [reflexivity|]); (split; [reflexivity|]);
    rewrite ?fetch_count_app; unfold fetch_count; simpl; lia.
Qed.

Lemma swr_open_failure_refetches_witness :
  fst (staleWhileRevalidate (mkEnv site (fun _ => None) true false false)
         font_file_req empty_world)
  = Ok (JResp offline503_plain).
Proof.
  exact (proj1 (swr_open_failure_refetches (mkEnv site (fun _ => None) true false false)
           font_file_req empty_world eq_refl)).
Defined.

(** ** A successful install *)










(** ** Activation twice *)

Lemma activate_handler_run w :
  activate_handler w =
    (Ok tt,
     mkWorld (filter (fun p : string * namespace =>
                negb (existsb (String.eqb (fst p)) (filter is_stale (map fst (caches w)))))
                (caches w))
       (((trace w ++ [ELog "Service Worker activating..."]) ++ [EKeys])
          ++ flat_map (fun n => [ELog "Deleting old cache:"; EDelete n])
                      (filter is_stale (map fst (caches w)))
          ++ [EClaim])
       (pending w)).
Proof.
  destruct w as [st tr p].
  unfold activate_handler, log, bind at 1, emit. simpl.
  unfold bind at 1, emit. simpl.
  unfold bind at 1, get_caches. simpl.
  unfold bind. rewrite delete_all_spec. simpl.
  unfold emit. simpl. now rewrite <- app_assoc.
Qed.

Lemma filter_all_false {A} (f : A -> bool) l :
  (forall x, In x l -> f x = false) -> filter f l = [].
Proof.
  induction l as [|x l IH]; intro H; simpl; [reflexivity|].
  rewrite H by (left; reflexivity). apply IH. intros y Hy. apply H. right; exact Hy.
Qed.

(** Activation is idempotent: a second activation finds only the two
    current namespaces, deletes nothing, and only logs, lists the keys and
    claims the clients again. *)
Theorem activate_idempotent w :
  let w1 := snd (activate_handler w) in
  caches (snd (activate_handler w1)) = caches w1
  /\ trace (snd (activate_handler w1)) =
       trace w1 ++ [ELog "Service Worker activating..."; EKeys; EClaim].
Proof.
  intro w1.
  assert (Hnone : filter is_stale (map fst (caches w1)) = []).
  { subst w1. rewrite activate_handler_run. simpl.
    apply filter_all_false. intros x Hx.
    apply in_map_iff in Hx. destruct Hx as [q [<- Hq]].
    apply filter_In in Hq. destruct Hq as [Hq Hkeep].
    rewrite existsb_stale_names in Hkeep by exact Hq.
    apply negb_true_iff in Hkeep. exact Hkeep. }
  rewrite activate_handler_run. rewrite Hnone. simpl. split.
  - generalize (caches w1) as l. intro l.
    induction l as [|q l IH]; simpl; [reflexivity|]. now rewrite IH.
  - now rewrite <- !app_assoc.
Qed.

(** ** Push notifications *)

(** A push without data shows nothing, and one whose payload is not JSON
    makes the listener throw. A payload that parses to [null] makes it throw
    too (reading [data.body]), and it is the only parsed value that does:
    any other shows a notification whose title, body and [data.url] are the
    payload's [title], [body] and [url] fields ([undefined] when absent, and
    always for a boolean, number, string or array), with the fixed icon and
    badge; clicking it closes it and opens [data.url] exactly when that is
    truthy. *)
Theorem push_then_click (number : Type) (number_truthy : number -> bool)
    (v : json (number := number)) :
  on_push (number := number) None = PushIgnored
  /\ (exists e, on_push (number := number) (Some PayloadMalformed) = PushThrew e)
  /\ ((exists e, on_push (Some (PayloadJson v)) = PushThrew e) <-> v = JsonNull)
  /\ (v <> JsonNull ->
      exists n,
        on_push (Some (PayloadJson v)) = PushShown n
        /\ n_title n = lookup v "title"
        /\ n_body n = lookup v "body"
        /\ n_data_url n = lookup v "url"
        /\ n_icon n = "/images/icon-192.png" /\ n_badge n = "/images/badge-72.png"
        /\ on_notificationclick number_truthy n =
             (true, if truthy number_truthy (lookup v "url")
                    then Some (lookup v "url") else None)).
Proof.
  split; [reflexivity|]. split; [eexists; reflexivity|]. split.
  - split.
    + intros [e H]. destruct v; simpl in H; try discriminate; reflexivity.
    + intros ->. eexists; reflexivity.
  - intro Hv. destruct v; [congruence| ..];
      (eexists; split; [reflexivity | repeat split]).
Qed.

Lemma push_then_click_witness :
  promo <> JsonNull
  /\ exists n,
       on_push (Some (PayloadJson promo)) = PushShown n
       /\ snd (on_notificationclick z_truthy n) = Some (JsDefined (JsonStr "/cardapio")).
Proof.
  assert (Hv : promo <> JsonNull) by discriminate.
  split; [exact Hv|].
  destruct (proj2 (proj2 (proj2 (push_then_click Z z_truthy promo))) Hv)
    as [n [H1 [_ [_ [_ [_ [_ H7]]]]]]].
  exists n. split; [exact H1|]. rewrite H7. reflexivity.
Defined.
